(** * Task configuration DAO and the Pub/Sub message sender

    A shallow embedding of two JavaScript modules of cloud-for-marketing:

    - [task_config_dao.js] of the data tasks coordinator: the [TaskType]
      enumeration and the [TaskConfigDao] constructor;
    - the Pub/Sub API handler [PubSubMessageSend]: its speed options and the
      function that sends one message per batch, retrying failed publishes.

    JavaScript values are an inductive type, objects are finite maps from
    property names to values, and the asynchronous sender is a function on
    the history of the calls it has made (waits and publishes), so that the
    number, the order and the spacing of the publish attempts can be read
    off the history. *)

From Stdlib Require Import ZArith String Ascii List.
From stdpp Require Import base option list gmap strings.
From Equations Require Import Equations.

Local Open Scope string_scope.
Local Open Scope list_scope.
Local Open Scope nat_scope.

(** ** JavaScript values *)

Module Js.

(** Numbers are the integer-valued ones: the modelled code only counts with
    them and hands them on. *)
#[warnings="-register-all"]
Inductive JsValue : Type :=
| JsUndefined
| JsNull
| JsBoolean (b : bool)
| JsNumber (n : Z)
| JsString (s : string)
| JsArray (elems : list JsValue)
| JsObject (props : gmap string JsValue).

(** A thrown [Error] object: the name of its class and its [message]. *)
Record JsError : Type := mkJsError {
  errorClass : string;
  message : string;
}.

(** [typeof v]. *)
Definition typeof (v : JsValue) : string :=
  match v with
  | JsUndefined => "undefined"
  | JsNull => "object"
  | JsBoolean _ => "boolean"
  | JsNumber _ => "number"
  | JsString _ => "string"
  | JsArray _ => "object"
  | JsObject _ => "object"
  end.

(** Truthiness, as used by [||] and [!]. *)
Definition truthy (v : JsValue) : bool :=
  match v with
  | JsUndefined | JsNull => false
  | JsBoolean b => b
  | JsNumber n => negb (n =? 0)%Z
  | JsString s => negb (String.eqb s "")
  | JsArray _ | JsObject _ => true
  end.

(** [a || b]. *)
Definition or_else (a b : JsValue) : JsValue := if truthy a then a else b.

(** [o.key] on the property map of an object: a missing property reads as
    [undefined]. *)
Definition prop (o : gmap string JsValue) (key : string) : JsValue :=
  default JsUndefined (o !! key).

(** [s.replace(/c/g, by)] for a one-character pattern. *)
Fixpoint replaceAll (c : ascii) (by_ : string) (s : string) : string :=
  match s with
  | EmptyString => EmptyString
  | String a rest =>
      if Ascii.eqb a c then String.append by_ (replaceAll c by_ rest)
      else String a (replaceAll c by_ rest)
  end.

Definition newline : ascii := ascii_of_nat 10.
Definition quote : ascii := ascii_of_nat 34.
Definition backslash : ascii := ascii_of_nat 92.

End Js.
Import Js.

(** ** task_config_dao.js *)

Module TaskConfig.

(** Types of task. *)
Inductive TaskType : Type :=
| LOAD | QUERY | EXPORT | DATA_TRANSFER | EXPORT_SCHEMA | DELETE_DATASET
| COPY_GCS
| PREDICT
| REPORT | QUERY_ADH
| KNOT | MULTIPLE.

(** The string each member of the enum stands for. *)
Definition value (t : TaskType) : string :=
  match t with
  | LOAD => "load"
  | QUERY => "query"
  | EXPORT => "export"
  | DATA_TRANSFER => "data_transfer"
  | EXPORT_SCHEMA => "export_schema"
  | DELETE_DATASET => "delete_dataset"
  | COPY_GCS => "copy_gcs"
  | PREDICT => "predict"
  | REPORT => "report"
  | QUERY_ADH => "query_adh"
  | KNOT => "knot"
  | MULTIPLE => "multiple"
  end.

(** The members in the order of the object literal. *)
Definition members : list TaskType :=
  [LOAD; QUERY; EXPORT; DATA_TRANSFER; EXPORT_SCHEMA; DELETE_DATASET;
   COPY_GCS; PREDICT; REPORT; QUERY_ADH; KNOT; MULTIPLE].

(** The groups the enum's comments put its members in. *)
Inductive TaskGroupComment : Type :=
| BigQueryTasks
| CloudStorageTasks
| AutoMLTablesAPI
| ReportTasks
| TasksDependenciesManagementTasks.

Definition group (t : TaskType) : TaskGroupComment :=
  match t with
  | LOAD | QUERY | EXPORT | DATA_TRANSFER | EXPORT_SCHEMA | DELETE_DATASET =>
      BigQueryTasks
  | COPY_GCS => CloudStorageTasks
  | PREDICT => AutoMLTablesAPI
  | REPORT | QUERY_ADH => ReportTasks
  | KNOT | MULTIPLE => TasksDependenciesManagementTasks
  end.

(** A composite kind manages other tasks instead of calling an
    integration. *)
Definition isComposite (t : TaskType) : bool :=
  match group t with
  | TasksDependenciesManagementTasks => true
  | _ => false
  end.

(** The member a string names, if any. *)
Definition ofValue (s : string) : option TaskType :=
  find (fun t => String.eqb (value t) s) members.

(** The two data sources of the file overview: Firestore in native mode or
    in Datastore mode. *)
Inductive DataSource : Type := FIRESTORE | DATASTORE.

(** Modelled from the spec: the base class [DataAccessObject] of
    [@google-cloud/nodejs-common] is not part of these sources. Its
    constructor is called as [super(kind, namespace, dataSource)]; documents
    are "keyed by (namespace, id)" in the store, so an instance is the
    collection (kind), the namespace and the data source it was built
    with. *)
Record DataAccessObject : Type := mkDataAccessObject {
  kind : string;
  namespace : string;
  dataSource : DataSource;
}.

(** [new TaskConfigDao(dataSource, namespace)]; [None] is an argument left
    out (or [undefined]), which takes the default ['sentinel']. *)
Definition TaskConfigDao (dataSource : DataSource) (namespace : option string)
  : DataAccessObject :=
  let namespace := default "sentinel" namespace in
  mkDataAccessObject "TaskConfig" namespace dataSource.

End TaskConfig.

(** ** The Pub/Sub API handler *)

Module PubSub.

(** One message per request. *)
Definition RECORDS_PER_REQUEST : Z := 1.
(** Queries per second. *)
Definition QUERIES_PER_SECOND : Z := 1.
Definition NUMBER_OF_THREADS : Z := 1.

(** Retry times if error happens in sending Pub/Sub messages. *)
Definition RETRY_TIMES : nat := 3.

(** What [getSpeedOptions] returns. *)
Record SpeedOptions : Type := mkSpeedOptions {
  recordsPerRequest : JsValue;
  numberOfThreads : JsValue;
  qps : JsValue;
}.

(** A [BatchResult]; [None] is a property that was never assigned. *)
Record BatchResult : Type := mkBatchResult {
  numberOfLines : Z;
  result : option bool;
  errors : option (list string);
  failedLines : option (list string);
}.

(** How a call ends: with a value, or with a thrown error (for an [async]
    function, a rejected promise). *)
Inductive Completion (A : Type) : Type :=
| Normal (a : A)
| Throw (e : JsError).
Arguments Normal {A} a.
Arguments Throw {A} e.

(** The calls the sender makes to the outside, in the order it makes them:
    [wait(ms)], and [pubsub.publish(topic, message, attributes)] with what
    the call came back with, a message id or a thrown error. The handler's
    logger is written to and never read; its calls are left out. *)
Inductive Event : Type :=
| EvWait (ms : nat)
| EvPublish (topic message attributes : JsValue) (outcome : JsError + string).

(** The injected [EnhancedPubSub] instance. What a publish comes back with
    may depend on everything that happened before it. A publish that fails
    rejects with an [Error] object, which has a [message]; a promise
    rejected with [undefined] or [null], on which reading [error.message]
    would itself throw, is not among the publishers modelled here. *)
Record EnhancedPubSub : Type := mkEnhancedPubSub {
  getOrCreateTopic : JsValue -> JsError + JsValue;
  publish : list Event -> JsValue -> JsValue -> JsValue -> JsError + string;
}.

(** The functions of the JavaScript runtime and of
    [@google-cloud/nodejs-common] the sender calls to build a message; their
    code is not part of these sources. *)
Record Runtime : Type := mkRuntime {
  JSON_parse : JsValue -> JsError + JsValue;
  JSON_stringify : JsValue -> JsValue;
  replaceParameters : JsValue -> JsValue -> bool -> JsError + JsValue;
}.

(** *** A small monad: a history of calls, and exceptions *)

Definition M (A : Type) : Type := list Event -> Completion A * list Event.

Definition ret {A} (a : A) : M A := fun h => (Normal a, h).

Definition throw {A} (e : JsError) : M A := fun h => (Throw e, h).

Definition bind {A B} (m : M A) (k : A -> M B) : M B :=
  fun h =>
    match m h with
    | (Normal a, h') => k a h'
    | (Throw e, h') => (Throw e, h')
    end.

(** A call that returns or throws without touching the history. *)
Definition lift {A} (r : JsError + A) : M A :=
  match r with
  | inl e => throw e
  | inr a => ret a
  end.

Notation "x <- m ;; k" := (bind m (fun x => k))
  (at level 100, m at next level, right associativity).

(** Modelled from the spec: [wait] of [@google-cloud/nodejs-common] is not
    part of these sources. A retry "waits k time units before re-issuing":
    [await wait(ms)] does nothing but let [ms] milliseconds pass, which the
    history records. *)
Definition wait (ms : nat) (h : list Event) : list Event := h ++ [EvWait ms].

(** [await pubsub.publish(topic, message, attributes)], as the [try] sees
    it: the outcome and the history with the call added. *)
Definition tryPublish (pubsub : EnhancedPubSub) (topic message attributes : JsValue)
    (h : list Event) : (JsError + string) * list Event :=
  let outcome := publish pubsub h topic message attributes in
  (outcome, h ++ [EvPublish topic message attributes outcome]).

(** *** getSpeedOptions *)

Section SpeedOptions.

(** The test a value of the config has to pass to be used as a speed
    option. *)
Variable proper : JsValue -> bool.

(** Modelled from the spec: [getProperValue(value, defaultValue, capped)] of
    [@google-cloud/nodejs-common] is not part of these sources. The spec has
    [getSpeedOptions] "applying integration-specific defaults for any option
    absent from config", and otherwise the option of the config when it is a
    valid one. Which values are valid is the helper's own business: [proper]
    stands for its test. The spec says nothing of capping, and the handler
    asks for none ([capped] is [false]). *)
Definition getProperValue (value : JsValue) (defaultValue : Z) (capped : bool)
  : JsValue :=
  match value with
  | JsUndefined => JsNumber defaultValue
  | _ => if proper value then value else JsNumber defaultValue
  end.

Definition getSpeedOptions (config : gmap string JsValue) : SpeedOptions :=
  let recordsPerRequest := JsNumber RECORDS_PER_REQUEST in
  let numberOfThreads :=
    getProperValue (prop config "numberOfThreads") NUMBER_OF_THREADS false in
  let qps := getProperValue (prop config "qps") QUERIES_PER_SECOND false in
  mkSpeedOptions recordsPerRequest numberOfThreads qps.

End SpeedOptions.

(** *** The function that sends one message *)

(** The value a string property is replaced by:
    [s.replace(/\n/g, '\\n').replace(/\"/g, '\\"')]. *)
Definition escapeString (s : string) : string :=
  replaceAll quote (String backslash (String quote EmptyString))
    (replaceAll newline (String backslash "n") s).

Definition escapeIfString (v : JsValue) : JsValue :=
  match v with
  | JsString s => JsString (escapeString s)
  | _ => v
  end.

(** [Object.keys(args).forEach(...)]: every string property of [args] is
    escaped in place. [Object.keys] throws on [null] and [undefined]; numbers
    and booleans have no keys; the characters of a string cannot be assigned
    to, the [TypeError] of the assignment is caught and the string stays. *)
Definition escapeArgs (args : JsValue) : JsError + JsValue :=
  match args with
  | JsUndefined | JsNull =>
      inl (mkJsError "TypeError" "Cannot convert undefined or null to object")
  | JsObject props => inr (JsObject (escapeIfString <$> props))
  | JsArray elems => inr (JsArray (escapeIfString <$> elems))
  | JsBoolean _ | JsNumber _ | JsString _ => inr args
  end.

Section Send.

Context (rt : Runtime) (pubsub : EnhancedPubSub).
Context (topic : JsValue) (config : gmap string JsValue).

(** The [do ... while (retryTimes <= RETRY_TIMES)] loop, entered with the
    current [retryTimes] and [errors]. The body runs before the test. *)
Equations? publishLoop (message attributes : JsValue) (lines : list string)
    (retryTimes : nat) (errors : list string) (h : list Event)
  : Completion BatchResult * list Event
  by wf (RETRY_TIMES - retryTimes) lt :=
publishLoop message attributes lines retryTimes errors h
  with tryPublish pubsub topic message attributes
         (if 0 <? retryTimes then wait (retryTimes * 1000) h else h) => {
  | (inr messageId, h') :=
      (Normal (mkBatchResult 1 (Some true) None None), h');
  | (inl error, h') with decide (S retryTimes <= RETRY_TIMES) => {
    | left _ :=
        publishLoop message attributes lines (S retryTimes)
          (errors ++ [Js.message error]) h';
    | right _ :=
        (Normal (mkBatchResult 1 (Some false)
                   (Some (errors ++ [Js.message error])) (Some lines)), h') } }.
Proof. unfold RETRY_TIMES in *. lia. Qed.

(** The [const originalMessage]: an object message is stringified. *)
Definition originalMessage : JsValue :=
  if String.eqb (typeof (prop config "message")) "object"
  then JSON_stringify rt (prop config "message")
  else prop config "message".

(** [getSendSingleMessageFn]: sends out one message with the given data. *)
Definition getSendSingleMessageFn (lines : list string) (batchId : JsValue)
  : M BatchResult :=
  if decide (length lines ≠ 1) then
    throw (mkJsError "Error" "Wrong number of Pub/Sub messages.")
  else
    let line0 := from_option JsString JsUndefined (lines !! 0) in
    args <- lift (JSON_parse rt line0) ;;
    args <- lift (escapeArgs args) ;;
    message <- lift (replaceParameters rt
                       (or_else originalMessage (JsString "")) args true) ;;
    attributesText <- lift (replaceParameters rt
                       (JSON_stringify rt
                          (or_else (prop config "attributes") (JsObject ∅)))
                       args true) ;;
    attributes <- lift (JSON_parse rt attributesText) ;;
    publishLoop message attributes lines 0 [].

(** The statements before the loop go through for [line] and leave
    [message] and [attributes]: no [JSON.parse] and no [replaceParameters]
    throws. *)
Definition buildsMessage (line : string) (message attributes : JsValue) : Prop :=
  exists parsed args attributesText,
    JSON_parse rt (JsString line) = inr parsed /\
    escapeArgs parsed = inr args /\
    replaceParameters rt (or_else originalMessage (JsString "")) args true
      = inr message /\
    replaceParameters rt
      (JSON_stringify rt (or_else (prop config "attributes") (JsObject ∅)))
      args true = inr attributesText /\
    JSON_parse rt attributesText = inr attributes.

End Send.

(** [sendDataInternal]: the topic is looked up once, and the function above
    is handed to the managed sender of the base class [ApiHandler], which is
    not part of these sources and is taken as it comes. *)
Definition sendDataInternal (rt : Runtime)
    (getManagedSendFn : gmap string JsValue ->
       (list string -> JsValue -> M BatchResult) -> string -> JsValue -> M BatchResult)
    (pubsub : EnhancedPubSub) (records : string) (messageId : JsValue)
    (config : gmap string JsValue) : M BatchResult :=
  let managedSend := getManagedSendFn config in
  topic <- lift (getOrCreateTopic pubsub (prop config "topic")) ;;
  managedSend (getSendSingleMessageFn rt pubsub topic config) records messageId.

(** *** Reading a history *)

Definition publishOutcome (ev : Event) : option (JsError + string) :=
  match ev with
  | EvPublish _ _ _ outcome => Some outcome
  | EvWait _ => None
  end.

(** What the publish calls of a history came back with, in order. *)
Definition publishOutcomes (h : list Event) : list (JsError + string) :=
  omap publishOutcome h.

(** The number of publish calls of a history. *)
Definition publishCount (h : list Event) : nat := length (publishOutcomes h).

Definition failureMessage (outcome : JsError + string) : option string :=
  match outcome with
  | inl error => Some (message error)
  | inr _ => None
  end.

(** The messages of the failed publish calls of a history, in order. *)
Definition failureMessages (h : list Event) : list string :=
  omap failureMessage (publishOutcomes h).

Definition isFailure (outcome : JsError + string) : Prop :=
  match outcome with inl _ => True | inr _ => False end.

(** The calls of attempt number [k] (from 0) whose publish came back with
    [outcome]: retry [k] waits [k] seconds first, attempt 0 does not wait. *)
Definition attemptEvents (topic message attributes : JsValue)
    (k : nat) (outcome : JsError + string) : list Event :=
  (if 0 <? k then [EvWait (k * 1000)] else [])
    ++ [EvPublish topic message attributes outcome].

(** The calls of the attempts numbered [r], [r + 1], ... one after the other,
    given what each publish came back with. *)
Definition loopEvents (topic message attributes : JsValue)
    (r : nat) (outcomes : list (JsError + string)) : list Event :=
  concat (imap (fun i => attemptEvents topic message attributes (r + i)) outcomes).

(** The history a publish of the loop is made on, when the loop body is
    entered with [retryTimes] on history [h]. *)
Definition beforePublish (retryTimes : nat) (h : list Event) : list Event :=
  if 0 <? retryTimes then wait (retryTimes * 1000) h else h.

(** The two results the loop can leave. *)
Definition sent : BatchResult := mkBatchResult 1 (Some true) None None.

Definition notSent (errors lines : list string) : BatchResult :=
  mkBatchResult 1 (Some false) (Some errors) (Some lines).

(** *** The spec's reading of the retry policy *)

(** The class [ErrorOptions] points at: "retries only attempted after a
    RetryableError". *)
Definition isRetryable (error : JsError) : bool :=
  String.eqb (errorClass error) "RetryableError".

(** [config.errorOptions.retryTimes], when it is there and a number. *)
Definition configuredRetryTimes (config : gmap string JsValue) : option Z :=
  match prop config "errorOptions" with
  | JsObject errorOptions =>
      match prop errorOptions "retryTimes" with
      | JsNumber n => Some n
      | _ => None
      end
  | _ => None
  end.

(** The spec's reading of the budget: a batch sent on an empty history is
    published [retryTimes + 1] times, [retryTimes] being the one of the
    config. It is meant for a batch whose publishes all fail. *)
Definition budgetFromConfig (rt : Runtime) (pubsub : EnhancedPubSub)
    (topic : JsValue) (config : gmap string JsValue) (lines : list string)
    (batchId : JsValue) : Prop :=
  forall n, configuredRetryTimes config = Some n ->
    Z.of_nat (publishCount
                (snd (getSendSingleMessageFn rt pubsub topic config lines batchId [])))
    = (n + 1)%Z.

(** The spec's reading of the classification: when the first publish of a
    batch sent on an empty history throws an error that is not retryable,
    there is no other publish. *)
Definition nonRetryableNotRetried (rt : Runtime) (pubsub : EnhancedPubSub)
    (topic : JsValue) (config : gmap string JsValue) (lines : list string)
    (batchId : JsValue) : Prop :=
  let h := snd (getSendSingleMessageFn rt pubsub topic config lines batchId []) in
  forall error, head (publishOutcomes h) = Some (inl error) ->
    isRetryable error = false -> publishCount h = 1.

(** *** Reading strings and waits *)

(** How many times the character [c] is in [s]. *)
Fixpoint occurrences (c : ascii) (s : string) : nat :=
  match s with
  | EmptyString => 0
  | String a rest => (if Ascii.eqb a c then 1 else 0) + occurrences c rest
  end.

(** Every quote of [s] comes right after a backslash; [afterBackslash] says
    whether the character before [s] is one. *)
Fixpoint quotesFollowBackslash (afterBackslash : bool) (s : string) : bool :=
  match s with
  | EmptyString => true
  | String a rest =>
      (if Ascii.eqb a quote then afterBackslash else true)
      && quotesFollowBackslash (Ascii.eqb a backslash) rest
  end.

(** *** A batch whose publishes all fail *)

(** Every publish of a run started on [h] fails: whatever errors the
    attempts made so far have thrown, the next attempt, made on the history
    they leave (after its wait, when it is a retry), fails too. *)
Definition failsOnEveryAttempt (pubsub : EnhancedPubSub)
    (topic message attributes : JsValue) (h : list Event) : Prop :=
  forall es : list JsError,
    length es <= RETRY_TIMES ->
    isFailure
      (publish pubsub
         (beforePublish (length es)
            (h ++ loopEvents topic message attributes 0 (inl <$> es)))
         topic message attributes).

(** The spec's reading of the end of such a batch, sent on an empty
    history: [retryTimes + 1] publishes, [retryTimes] being the one of the
    config, and then a [BatchResult] with [result = false], the messages of
    the failures in [errors] and the batch in [failedLines]. *)
Definition givesUpAfterConfiguredRetries (rt : Runtime) (pubsub : EnhancedPubSub)
    (topic : JsValue) (config : gmap string JsValue) (lines : list string)
    (batchId : JsValue) : Prop :=
  forall n, configuredRetryTimes config = Some n ->
    exists br h,
      getSendSingleMessageFn rt pubsub topic config lines batchId [] = (Normal br, h) /\
      Z.of_nat (publishCount h) = (n + 1)%Z /\
      result br = Some false /\
      errors br = Some (failureMessages h) /\
      failedLines br = Some lines.

Definition waitOf (ev : Event) : nat :=
  match ev with
  | EvWait ms => ms
  | EvPublish _ _ _ _ => 0
  end.

(** The milliseconds a history spends in [wait]. *)
Definition totalWait (h : list Event) : nat := sum_list_with waitOf h.

End PubSub.

(** ** Concrete runtimes, publishers and configs *)

Module Examples.
Import PubSub.

(** A runtime for lines and configs without parameters: the line [{}]
    parses to the empty object, any other text is a syntax error; an object
    is stringified as [{}] (the empty one is the only one met below);
    [replaceParameters] finds nothing to replace. *)
Definition testRuntime : Runtime :=
  {| JSON_parse := fun v =>
       match v with
       | JsString s =>
           if String.eqb s "{}" then inr (JsObject ∅)
           else inl (mkJsError "SyntaxError" "Unexpected token in JSON")
       | _ => inl (mkJsError "SyntaxError" "Unexpected token in JSON")
       end;
     JSON_stringify := fun v =>
       match v with
       | JsUndefined => JsUndefined
       | _ => JsString "{}"
       end;
     replaceParameters := fun text _ _ => inr text |}.

(** A publisher every publish of which throws [error]. *)
Definition failingWith (error : JsError) : EnhancedPubSub :=
  {| getOrCreateTopic := fun name => inr name;
     publish := fun _ _ _ _ => inl error |}.

(** A publisher whose first [k] publishes throw [error] and whose later
    ones return the message id [id]. *)
Definition failingFirst (k : nat) (error : JsError) (id : string) : EnhancedPubSub :=
  {| getOrCreateTopic := fun name => inr name;
     publish := fun h _ _ _ =>
       if publishCount h <? k then inl error else inr id |}.

Definition unavailable : JsError := mkJsError "RetryableError" "UNAVAILABLE".
Definition permissionDenied : JsError := mkJsError "Error" "PERMISSION_DENIED".

Definition topic : JsValue := JsString "projects/p/topics/t".

Definition baseConfig : gmap string JsValue :=
  <["topic" := JsString "t"]> (<["message" := JsString "hello"]> ∅).

(** Two configs that differ in [errorOptions.retryTimes] only. *)
Definition retryOnce : gmap string JsValue :=
  <["errorOptions" := JsObject (<["retryTimes" := JsNumber 1]> ∅)]> baseConfig.

Definition retryFive : gmap string JsValue :=
  <["errorOptions" := JsObject (<["retryTimes" := JsNumber 5]> ∅)]> baseConfig.

(** The runtime above, with the line [null] parsed to [null]. *)
Definition nullLineRuntime : Runtime :=
  {| JSON_parse := fun v =>
       match v with
       | JsString s =>
           if String.eqb s "null" then inr JsNull else JSON_parse testRuntime v
       | _ => JSON_parse testRuntime v
       end;
     JSON_stringify := JSON_stringify testRuntime;
     replaceParameters := replaceParameters testRuntime |}.

(** A publisher that cannot get at its topic. *)
Definition topicNotFound : JsError := mkJsError "Error" "NOT_FOUND".

Definition withoutTopic : EnhancedPubSub :=
  {| getOrCreateTopic := fun _ => inl topicNotFound;
     publish := fun _ _ _ _ => inr "id-1" |}.

End Examples.

Import PubSub.

(** ** Facts about histories *)

Section Histories.

Lemma publishOutcomes_app (h1 h2 : list Event) :
  publishOutcomes (h1 ++ h2) = publishOutcomes h1 ++ publishOutcomes h2.
Proof. unfold publishOutcomes. apply omap_app. Qed.

Lemma publishCount_app (h1 h2 : list Event) :
  publishCount (h1 ++ h2) = publishCount h1 + publishCount h2.
Proof. unfold publishCount. rewrite publishOutcomes_app. apply length_app. Qed.

Lemma publishOutcomes_beforePublish (r : nat) (h : list Event) :
  publishOutcomes (beforePublish r h) = publishOutcomes h.
Proof.
  unfold beforePublish, wait. destruct (0 <? r); [|reflexivity].
  rewrite publishOutcomes_app. simpl. apply app_nil_r.
Qed.

Lemma publishCount_beforePublish (r : nat) (h : list Event) :
  publishCount (beforePublish r h) = publishCount h.
Proof. unfold publishCount. by rewrite publishOutcomes_beforePublish. Qed.

Context (topic message attributes : JsValue).

Lemma beforePublish_attempt (r : nat) (h : list Event) (o : JsError + string) :
  beforePublish r h ++ [EvPublish topic message attributes o]
  = h ++ attemptEvents topic message attributes r o.
Proof.
  unfold beforePublish, attemptEvents, wait.
  destruct (0 <? r); simpl; [by rewrite <- app_assoc | reflexivity].
Qed.

Lemma publishOutcomes_attempt (k : nat) (o : JsError + string) :
  publishOutcomes (attemptEvents topic message attributes k o) = [o].
Proof. unfold attemptEvents. by destruct (0 <? k). Qed.

Lemma loopEvents_nil (r : nat) : loopEvents topic message attributes r [] = [].
Proof. reflexivity. Qed.

Lemma loopEvents_cons (r : nat) (o : JsError + string) (os : list (JsError + string)) :
  loopEvents topic message attributes r (o :: os)
  = attemptEvents topic message attributes r o
      ++ loopEvents topic message attributes (S r) os.
Proof.
  unfold loopEvents. rewrite imap_cons. simpl. rewrite Nat.add_0_r.
  f_equal. f_equal. apply imap_ext. intros i x _. simpl. f_equal. lia.
Qed.

Lemma publishOutcomes_loopEvents (r : nat) (os : list (JsError + string)) :
  publishOutcomes (loopEvents topic message attributes r os) = os.
Proof.
  revert r. induction os as [|o os IH]; intros r; [reflexivity|].
  rewrite loopEvents_cons, publishOutcomes_app, publishOutcomes_attempt, IH.
  reflexivity.
Qed.

Lemma publishCount_loopEvents (r : nat) (os : list (JsError + string)) :
  publishCount (loopEvents topic message attributes r os) = length os.
Proof. unfold publishCount. by rewrite publishOutcomes_loopEvents. Qed.

Lemma failureMessages_loopEvents (r : nat) (os : list (JsError + string)) :
  failureMessages (loopEvents topic message attributes r os)
  = omap failureMessage os.
Proof. unfold failureMessages. by rewrite publishOutcomes_loopEvents. Qed.

Lemma failureMessages_loopEvents_failures (r : nat) (es : list JsError) :
  failureMessages (loopEvents topic message attributes r (inl <$> es))
  = Js.message <$> es.
Proof.
  unfold failureMessages. rewrite publishOutcomes_loopEvents.
  induction es as [|e es IH]; [reflexivity|].
  rewrite !fmap_cons. simpl. f_equal. exact IH.
Qed.

End Histories.

(** ** The retry loop, one turn at a time *)

Section LoopSteps.

Context (pubsub : EnhancedPubSub) (topic message attributes : JsValue).
Context (lines : list string).

Lemma publishLoop_sent (r : nat) (errs : list string) (h : list Event) (id : string) :
  publish pubsub (beforePublish r h) topic message attributes = inr id ->
  publishLoop pubsub topic message attributes lines r errs h
  = (Normal sent, h ++ attemptEvents topic message attributes r (inr id)).
Proof.
  intros Hp. rewrite publishLoop_equation_1. unfold tryPublish.
  fold (beforePublish r h). rewrite Hp. simpl.
  by rewrite beforePublish_attempt.
Qed.

Lemma publishLoop_retry (r : nat) (errs : list string) (h : list Event) (e : JsError) :
  publish pubsub (beforePublish r h) topic message attributes = inl e ->
  S r <= RETRY_TIMES ->
  publishLoop pubsub topic message attributes lines r errs h
  = publishLoop pubsub topic message attributes lines (S r)
      (errs ++ [Js.message e])
      (h ++ attemptEvents topic message attributes r (inl e)).
Proof.
  intros Hp Hle. rewrite publishLoop_equation_1. unfold tryPublish.
  fold (beforePublish r h). rewrite Hp. simpl.
  destruct (decide (S r <= RETRY_TIMES)) as [Hle'|Hn]; [|contradiction].
  simpl. by rewrite beforePublish_attempt.
Qed.

Lemma publishLoop_give_up (r : nat) (errs : list string) (h : list Event) (e : JsError) :
  publish pubsub (beforePublish r h) topic message attributes = inl e ->
  ~ S r <= RETRY_TIMES ->
  publishLoop pubsub topic message attributes lines r errs h
  = (Normal (notSent (errs ++ [Js.message e]) lines),
     h ++ attemptEvents topic message attributes r (inl e)).
Proof.
  intros Hp Hn. rewrite publishLoop_equation_1. unfold tryPublish.
  fold (beforePublish r h). rewrite Hp. simpl.
  destruct (decide (S r <= RETRY_TIMES)) as [Hle|Hn']; [contradiction|].
  simpl. by rewrite beforePublish_attempt.
Qed.

(** Every run of the loop, whatever the publishes come back with: the
    errors [es] of the failed publishes, each one thrown by a publish made
    after the ones before it, and then either a publish that succeeds within
    the budget, or the budget used up. *)
Lemma publishLoop_run (r : nat) (errs : list string) (h : list Event) :
  r <= RETRY_TIMES ->
  exists es : list JsError,
    (forall i e, es !! i = Some e ->
       exists h', publishCount h' = publishCount h + i /\
                  publish pubsub h' topic message attributes = inl e) /\
    ((exists id h',
        r + length es <= RETRY_TIMES /\
        publishCount h' = publishCount h + length es /\
        publish pubsub h' topic message attributes = inr id /\
        publishLoop pubsub topic message attributes lines r errs h
        = (Normal sent,
           h ++ loopEvents topic message attributes r ((inl <$> es) ++ [inr id])))
     \/
     (r + length es = S RETRY_TIMES /\
      publishLoop pubsub topic message attributes lines r errs h
      = (Normal (notSent (errs ++ (Js.message <$> es)) lines),
         h ++ loopEvents topic message attributes r (inl <$> es)))).
Proof.
  intros Hr. remember (RETRY_TIMES - r) as n eqn:Hn.
  revert r errs h Hr Hn.
  induction n as [|n IH]; intros r errs h Hr Hn.
  all: destruct (publish pubsub (beforePublish r h) topic message attributes)
         as [e|id] eqn:Hp.
  all: try (exists []; split; [intros i e0 Hi; discriminate Hi|]; left;
            exists id, (beforePublish r h); simpl;
            rewrite publishCount_beforePublish, loopEvents_cons, loopEvents_nil,
              app_nil_r;
            repeat split; [lia | lia | exact Hp | by apply publishLoop_sent]).
  - exists [e]. split.
    + intros [|i] e0 Hi; [|discriminate Hi]. injection Hi as <-.
      exists (beforePublish r h). rewrite publishCount_beforePublish.
      split; [lia | exact Hp].
    + right. simpl. split; [lia|].
      rewrite loopEvents_cons, loopEvents_nil, app_nil_r.
      apply publishLoop_give_up; [exact Hp | lia].
  - destruct (IH (S r) (errs ++ [Js.message e])
                (h ++ attemptEvents topic message attributes r (inl e)))
      as (es & Hes & Hres); [lia | lia |].
    assert (Hc : publishCount (h ++ attemptEvents topic message attributes r (inl e))
                 = S (publishCount h)).
    { rewrite publishCount_app. unfold publishCount at 2.
      rewrite publishOutcomes_attempt. simpl. lia. }
    exists (e :: es). split.
    + intros [|i] e0 Hi.
      * injection Hi as <-. exists (beforePublish r h).
        rewrite publishCount_beforePublish. split; [lia | exact Hp].
      * destruct (Hes i e0 Hi) as (h' & Hh' & Hp').
        exists h'. split; [lia | exact Hp'].
    + rewrite (publishLoop_retry _ _ _ _ Hp) by lia.
      destruct Hres as [(id & h' & Hle & Hh' & Hp' & Hrun) | (Hlen & Hrun)].
      * left. exists id, h'. simpl.
        rewrite loopEvents_cons, app_assoc.
        repeat split; [lia | lia | exact Hp' | exact Hrun].
      * right. simpl. rewrite loopEvents_cons, app_assoc.
        split; [lia|]. rewrite Hrun. by rewrite <- app_assoc.
Qed.

End LoopSteps.

(** ** The retry loop and the publisher *)

Section LoopAndPublisher.

Context (pubsub : EnhancedPubSub) (topic message attributes : JsValue).
Context (lines : list string).

(** The run of the loop with the histories its publishes are made on: the
    errors [es] are the publisher's answers, each on the history the earlier
    attempts have left, and so is the message id of the publish that
    succeeds, when there is one. *)
Lemma publishLoop_exact (r : nat) (errs : list string) (h : list Event) :
  r <= RETRY_TIMES ->
  exists es : list JsError,
    (forall i e, es !! i = Some e ->
       publish pubsub
         (beforePublish (r + i)
            (h ++ loopEvents topic message attributes r (inl <$> take i es)))
         topic message attributes = inl e) /\
    ((exists id,
        r + length es <= RETRY_TIMES /\
        publish pubsub
          (beforePublish (r + length es)
             (h ++ loopEvents topic message attributes r (inl <$> es)))
          topic message attributes = inr id /\
        publishLoop pubsub topic message attributes lines r errs h
        = (Normal sent,
           h ++ loopEvents topic message attributes r ((inl <$> es) ++ [inr id])))
     \/
     (r + length es = S RETRY_TIMES /\
      publishLoop pubsub topic message attributes lines r errs h
      = (Normal (notSent (errs ++ (Js.message <$> es)) lines),
         h ++ loopEvents topic message attributes r (inl <$> es)))).
Proof.
  intros Hr. remember (RETRY_TIMES - r) as n eqn:Hn.
  revert r errs h Hr Hn.
  induction n as [|n IH]; intros r errs h Hr Hn.
  all: destruct (publish pubsub (beforePublish r h) topic message attributes)
         as [e|id] eqn:Hp.
  all: try (exists []; split; [intros i e0 Hi; discriminate Hi|]; left;
            exists id; simpl;
            rewrite loopEvents_cons, !loopEvents_nil, !app_nil_r, Nat.add_0_r;
            repeat split; [lia | exact Hp | by apply publishLoop_sent]).
  - exists [e]. split.
    + intros [|i] e0 Hi; [|discriminate Hi]. injection Hi as <-. simpl.
      by rewrite loopEvents_nil, app_nil_r, Nat.add_0_r.
    + right. simpl. split; [lia|].
      rewrite loopEvents_cons, loopEvents_nil, app_nil_r.
      apply publishLoop_give_up; [exact Hp | lia].
  - destruct (IH (S r) (errs ++ [Js.message e])
                (h ++ attemptEvents topic message attributes r (inl e)))
      as (es & Hes & Hres); [lia | lia |].
    exists (e :: es). split.
    + intros [|i] e0 Hi; simpl.
      * injection Hi as <-.
        by rewrite loopEvents_nil, app_nil_r, Nat.add_0_r.
      * rewrite loopEvents_cons, app_assoc, Nat.add_succ_r.
        by apply Hes.
    + rewrite (publishLoop_retry _ _ _ _ _ _ _ _ _ Hp) by lia.
      destruct Hres as [(id & Hle & Hp' & Hrun) | (Hlen & Hrun)].
      * left. exists id. simpl.
        rewrite !loopEvents_cons, !app_assoc, Nat.add_succ_r.
        repeat split; [lia | exact Hp' | exact Hrun].
      * right. simpl. rewrite loopEvents_cons, app_assoc.
        split; [lia|]. rewrite Hrun. by rewrite <- app_assoc.
Qed.

End LoopAndPublisher.

(** ** The send function as a whole *)

Section SendFacts.

Context (rt : Runtime) (pubsub : EnhancedPubSub).
Context (topic : JsValue) (config : gmap string JsValue).

(** With one line and a message that builds, the function is the loop
    entered with [retryTimes = 0] and no errors. *)
Lemma getSendSingleMessageFn_built (line : string) (batchId : JsValue)
    (message attributes : JsValue) (h : list Event) :
  buildsMessage rt config line message attributes ->
  getSendSingleMessageFn rt pubsub topic config [line] batchId h
  = publishLoop pubsub topic message attributes [line] 0 [] h.
Proof.
  intros (parsed & args & text & Hparse & Hesc & Hmsg & Htext & Hattr).
  unfold getSendSingleMessageFn.
  destruct (decide (length [line] ≠ 1)) as [Hne|_]; [by destruct Hne|].
  unfold bind, lift, ret. simpl.
  rewrite Hparse, Hesc, Hmsg, Htext, Hattr. reflexivity.
Qed.

(** Otherwise it throws before it has called anything. *)
Lemma getSendSingleMessageFn_cases (lines : list string) (batchId : JsValue)
    (h : list Event) :
  (exists e, getSendSingleMessageFn rt pubsub topic config lines batchId h
             = (Throw e, h))
  \/ (exists line message attributes,
        lines = [line] /\
        buildsMessage rt config line message attributes /\
        getSendSingleMessageFn rt pubsub topic config lines batchId h
        = publishLoop pubsub topic message attributes lines 0 [] h).
Proof.
  unfold getSendSingleMessageFn.
  destruct (decide (length lines ≠ 1)) as [Hne|Hlen].
  { left. eexists. reflexivity. }
  destruct lines as [|line [|? ?]]; [by destruct Hlen | | by destruct Hlen].
  unfold bind, lift, ret, throw. simpl.
  destruct (JSON_parse rt (JsString line)) as [e|parsed] eqn:Hparse;
    [left; by eexists|].
  destruct (escapeArgs parsed) as [e|args] eqn:Hesc; [left; by eexists|].
  destruct (replaceParameters rt (or_else (originalMessage rt config) (JsString ""))
              args true) as [e|message] eqn:Hmsg; [left; by eexists|].
  destruct (replaceParameters rt
              (JSON_stringify rt (or_else (prop config "attributes") (JsObject ∅)))
              args true) as [e|text] eqn:Htext; [left; by eexists|].
  destruct (JSON_parse rt text) as [e|attributes] eqn:Hattr; [left; by eexists|].
  right. exists line, message, attributes.
  split; [reflexivity|]. split; [|reflexivity].
  exists parsed, args, text. auto.
Qed.

(** Every run of the function: it throws before it has called anything, or
    [es] are the errors of the publishes that failed, and either the next
    publish succeeded, within the budget, or the budget is used up. *)
Lemma getSendSingleMessageFn_run (lines : list string) (batchId : JsValue)
    (h : list Event) :
  (exists e, getSendSingleMessageFn rt pubsub topic config lines batchId h
             = (Throw e, h))
  \/ (exists line message attributes (es : list JsError),
        lines = [line] /\
        buildsMessage rt config line message attributes /\
        ((exists id,
            length es <= RETRY_TIMES /\
            getSendSingleMessageFn rt pubsub topic config lines batchId h
            = (Normal sent,
               h ++ loopEvents topic message attributes 0
                      ((inl <$> es) ++ [inr id])))
         \/
         (length es = S RETRY_TIMES /\
          getSendSingleMessageFn rt pubsub topic config lines batchId h
          = (Normal (notSent (Js.message <$> es) lines),
             h ++ loopEvents topic message attributes 0 (inl <$> es))))).
Proof.
  destruct (getSendSingleMessageFn_cases lines batchId h)
    as [Hthrow | (line & message & attributes & -> & Hbuilt & Hrun)];
    [by left|].
  right. exists line, message, attributes. rewrite Hrun.
  destruct (publishLoop_run pubsub topic message attributes [line] 0 [] h)
    as (es & _ & [(id & h' & Hle & _ & _ & Hloop) | (Hlen & Hloop)]);
    [lia | |]; exists es; (split; [reflexivity|]); (split; [exact Hbuilt|]).
  - left. exists id. by split.
  - right. by split.
Qed.

End SendFacts.

(** ** The attempts of a run and the publisher's answers *)

Section Attempts.

Context (rt : Runtime) (pubsub : EnhancedPubSub).
Context (topic : JsValue) (config : gmap string JsValue).

Lemma lookup_failures_then (es : list JsError) (o' : JsError + string)
    (k : nat) (o : JsError + string) :
  ((inl <$> es) ++ [o']) !! k = Some o ->
  (k < length es /\ exists e, es !! k = Some e /\ o = inl e)
  \/ (k = length es /\ o = o').
Proof.
  intros Hk. destruct (decide (k < length es)) as [Hlt|Hge].
  - left. split; [exact Hlt|].
    rewrite lookup_app_l in Hk by (by rewrite length_fmap).
    rewrite list_lookup_fmap in Hk.
    destruct (es !! k) as [e|]; [|discriminate Hk].
    exists e. split; [reflexivity|]. by injection Hk.
  - right. assert (Hlen : k < length ((inl <$> es) ++ [o']))
      by (eapply lookup_lt_Some; exact Hk).
    rewrite length_app, length_fmap in Hlen. simpl in Hlen.
    assert (k = length es) as -> by lia. split; [reflexivity|].
    rewrite lookup_app_r in Hk by (by rewrite length_fmap).
    rewrite length_fmap, Nat.sub_diag in Hk. by injection Hk.
Qed.

(** The outcomes of the publishes of a run on one record whose message
    builds: there is at least one; each is the publisher's answer on the
    history the attempts before it have left; a failure is followed by
    another attempt as long as fewer than [RETRY_TIMES] retries were made,
    and a success by none. *)
Lemma getSendSingleMessageFn_attempts (line : string) (batchId : JsValue)
    (message attributes : JsValue) (h : list Event) :
  buildsMessage rt config line message attributes ->
  exists outcomes : list (JsError + string),
    outcomes ≠ [] /\
    length outcomes <= RETRY_TIMES + 1 /\
    snd (getSendSingleMessageFn rt pubsub topic config [line] batchId h)
      = h ++ loopEvents topic message attributes 0 outcomes /\
    (forall k o, outcomes !! k = Some o ->
       publish pubsub
         (beforePublish k
            (h ++ loopEvents topic message attributes 0 (take k outcomes)))
         topic message attributes = o) /\
    (forall k e, outcomes !! k = Some (inl e) -> k < RETRY_TIMES ->
       is_Some (outcomes !! S k)) /\
    (forall k id, outcomes !! k = Some (inr id) -> outcomes !! S k = None).
Proof.
  intros Hbuilt.
  rewrite (getSendSingleMessageFn_built _ _ _ _ _ _ _ _ _ Hbuilt).
  destruct (publishLoop_exact pubsub topic message attributes [line] 0 [] h)
    as (es & Hes & [(id & Hle & Hp & ->) | (Hlen & ->)]); [lia | |];
    cbn [snd].
  - exists ((inl <$> es) ++ [inr id]).
    split; [by destruct es|].
    split; [rewrite length_app, length_fmap; unfold RETRY_TIMES in *;
            simpl; lia|].
    split; [reflexivity|]. split; [|split].
    + intros k o Hk.
      destruct (lookup_failures_then _ _ _ _ Hk)
        as [(Hlt & e & He & ->) | (-> & ->)].
      * rewrite take_app_le by (rewrite length_fmap; lia).
        rewrite <- fmap_take. by apply Hes.
      * replace (take (length es) ((inl <$> es) ++ [inr id]))
          with (inl <$> es : list (JsError + string)); [exact Hp|].
        rewrite take_app_le by (by rewrite length_fmap).
        rewrite take_ge by (by rewrite length_fmap). reflexivity.
    + intros k e Hk _.
      destruct (lookup_failures_then _ _ _ _ Hk)
        as [(Hlt & _) | (_ & Hne)]; [|discriminate Hne].
      apply lookup_lt_is_Some. rewrite length_app, length_fmap. simpl. lia.
    + intros k id' Hk.
      destruct (lookup_failures_then _ _ _ _ Hk)
        as [(_ & e & _ & Hne) | (-> & _)]; [discriminate Hne|].
      apply lookup_ge_None. rewrite length_app, length_fmap. simpl. lia.
  - exists (inl <$> es).
    split; [destruct es; [discriminate Hlen | discriminate]|].
    split; [rewrite length_fmap; unfold RETRY_TIMES in *; lia|].
    split; [reflexivity|]. split; [|split].
    + intros k o Hk. rewrite list_lookup_fmap in Hk.
      destruct (es !! k) as [e|] eqn:He; [|discriminate Hk].
      injection Hk as <-. rewrite <- fmap_take. by apply Hes.
    + intros k e _ Hk. apply lookup_lt_is_Some. rewrite length_fmap.
      unfold RETRY_TIMES in *. lia.
    + intros k id' Hk. rewrite list_lookup_fmap in Hk.
      destruct (es !! k); discriminate Hk.
Qed.

(** When every attempt fails, the budget is used up: [RETRY_TIMES + 1]
    errors, one for each publish. *)
Lemma getSendSingleMessageFn_all_fail (line : string) (batchId : JsValue)
    (message attributes : JsValue) (h : list Event) :
  buildsMessage rt config line message attributes ->
  failsOnEveryAttempt pubsub topic message attributes h ->
  exists es : list JsError,
    length es = S RETRY_TIMES /\
    getSendSingleMessageFn rt pubsub topic config [line] batchId h
    = (Normal (notSent (Js.message <$> es) [line]),
       h ++ loopEvents topic message attributes 0 (inl <$> es)).
Proof.
  intros Hbuilt Hfail.
  rewrite (getSendSingleMessageFn_built _ _ _ _ _ _ _ _ _ Hbuilt).
  destruct (publishLoop_exact pubsub topic message attributes [line] 0 [] h)
    as (es & _ & [(id & Hle & Hp & _) | (Hlen & Hrun)]); [lia | |].
  - cbn [Nat.add] in Hle, Hp. specialize (Hfail es Hle).
    rewrite Hp in Hfail. destruct Hfail.
  - exists es. split; [exact Hlen | exact Hrun].
Qed.

End Attempts.

Create Rewrite HintDb history.
#[local] Hint Rewrite publishCount_loopEvents publishOutcomes_loopEvents
  failureMessages_loopEvents_failures @length_app @length_fmap @app_nil_r
  : history.

Import Examples.

(** The message of the examples builds from the line [{}]. *)
Lemma baseConfig_builds (config : gmap string JsValue) :
  prop config "message" = JsString "hello" ->
  prop config "attributes" = JsUndefined ->
  buildsMessage testRuntime config "{}" (JsString "hello") (JsObject ∅).
Proof.
  intros Hm Ha. exists (JsObject ∅), (JsObject ∅), (JsString "{}").
  unfold originalMessage. rewrite Hm, Ha. repeat split; reflexivity.
Qed.

(** ** The sender's retries *)

(** C1, as the spec has it, fails: with [retryTimes: 5] in the config, a
    batch whose publishes all fail is not published [5 + 1] times before it
    is given up, but 4 times. *)
Lemma gives_up_after_configured_retries_counterexample :
  ~ givesUpAfterConfiguredRetries testRuntime (failingWith unavailable) topic
      retryFive ["{}"] JsNull.
Proof.
  intros Hclaim. destruct (Hclaim 5%Z eq_refl) as (br & h & Hrun & Hcount & _).
  vm_compute in Hrun. injection Hrun as _ <-.
  vm_compute in Hcount. discriminate Hcount.
Qed.

(** C1, amended: a batch whose publish fails on every attempt is published
    exactly [RETRY_TIMES + 1] times, [RETRY_TIMES = 3] being the constant of
    the handler whatever the config holds; the function then returns a
    [BatchResult] with [result = false], [errors] holding the failure
    message of every attempt in order, and [failedLines] the records of the
    batch. *)
Theorem send_gives_up_after_all_attempts_fail
    (rt : Runtime) (pubsub : EnhancedPubSub) (topic : JsValue)
    (config : gmap string JsValue) (line : string) (batchId : JsValue)
    (message attributes : JsValue) (h : list Event) :
  buildsMessage rt config line message attributes ->
  failsOnEveryAttempt pubsub topic message attributes h ->
  exists br evs,
    getSendSingleMessageFn rt pubsub topic config [line] batchId h
      = (Normal br, h ++ evs) /\
    publishCount evs = RETRY_TIMES + 1 /\
    Forall isFailure (publishOutcomes evs) /\
    result br = Some false /\
    errors br = Some (failureMessages evs) /\
    length (failureMessages evs) = RETRY_TIMES + 1 /\
    failedLines br = Some [line].
Proof.
  intros Hbuilt Hfail.
  destruct (getSendSingleMessageFn_all_fail rt pubsub topic config line batchId
              message attributes h Hbuilt Hfail) as (es & Hlen & Hrun).
  exists (notSent (Js.message <$> es) [line]),
    (loopEvents topic message attributes 0 (inl <$> es)).
  rewrite publishCount_loopEvents, publishOutcomes_loopEvents,
    failureMessages_loopEvents_failures, !length_fmap.
  repeat split; try assumption; try lia.
  apply Forall_fmap, Forall_forall. intros e _. exact I.
Qed.

Lemma send_gives_up_after_all_attempts_fail_witness :
  buildsMessage testRuntime retryFive "{}" (JsString "hello") (JsObject ∅) /\
  failsOnEveryAttempt (failingWith unavailable) topic (JsString "hello")
    (JsObject ∅) [] /\
  exists br evs,
    getSendSingleMessageFn testRuntime (failingWith unavailable) topic retryFive
      ["{}"] JsNull [] = (Normal br, [] ++ evs) /\
    publishCount evs = RETRY_TIMES + 1 /\
    Forall isFailure (publishOutcomes evs) /\
    result br = Some false /\
    errors br = Some (failureMessages evs) /\
    length (failureMessages evs) = RETRY_TIMES + 1 /\
    failedLines br = Some ["{}"].
Proof.
  assert (Hb : buildsMessage testRuntime retryFive "{}" (JsString "hello")
                 (JsObject ∅)) by (apply baseConfig_builds; reflexivity).
  assert (Hf : failsOnEveryAttempt (failingWith unavailable) topic
                 (JsString "hello") (JsObject ∅) [])
    by (intros es _; exact I).
  split; [exact Hb|]. split; [exact Hf|].
  exact (send_gives_up_after_all_attempts_fail testRuntime
           (failingWith unavailable) topic retryFive "{}" JsNull
           (JsString "hello") (JsObject ∅) [] Hb Hf).
Defined.

(** C4: a batch that does not hold exactly one record makes the function
    throw at once: nothing is published, nothing is waited for, no retry is
    made. The fault comes as a thrown [Error], and so apart from a send
    fault, which comes back in a returned [BatchResult]. *)
Theorem wrong_arity_throws_before_any_publish
    (rt : Runtime) (pubsub : EnhancedPubSub) (topic : JsValue)
    (config : gmap string JsValue) (lines : list string) (batchId : JsValue)
    (h : list Event) :
  length lines ≠ 1 ->
  getSendSingleMessageFn rt pubsub topic config lines batchId h
    = (Throw (mkJsError "Error" "Wrong number of Pub/Sub messages."), h) /\
  (forall br, fst (getSendSingleMessageFn rt pubsub topic config lines batchId h)
              ≠ Normal br) /\
  publishCount (snd (getSendSingleMessageFn rt pubsub topic config lines batchId h))
    = publishCount h.
Proof.
  intros Hne. unfold getSendSingleMessageFn.
  destruct (decide (length lines ≠ 1)) as [_|Heq]; [|contradiction].
  unfold throw. simpl. repeat split. intros br Hbr. discriminate Hbr.
Qed.

Lemma wrong_arity_throws_before_any_publish_witness :
  length ["{}"; "{}"] ≠ 1 /\
  getSendSingleMessageFn testRuntime (failingFirst 0 unavailable "id-1") topic
    baseConfig ["{}"; "{}"] JsNull []
    = (Throw (mkJsError "Error" "Wrong number of Pub/Sub messages."), []).
Proof.
  assert (Hne : length ["{}"; "{}"] ≠ 1) by (simpl; lia).
  split; [exact Hne|].
  exact (proj1 (wrong_arity_throws_before_any_publish testRuntime
                  (failingFirst 0 unavailable "id-1") topic baseConfig
                  ["{}"; "{}"] JsNull [] Hne)).
Defined.

(** C5: retry [k] (k = 1, 2, ...) waits [k * 1000] milliseconds, [k]
    seconds, before it publishes again, and the first attempt is not waited
    for. For a record whose message builds, the run makes at least one
    attempt; the calls it adds to the history are, attempt after attempt
    from 0, a lone publish for attempt 0 and [wait(k * 1000)] then the
    publish for retry [k]; each outcome is the publisher's answer on the
    history the attempts before it have left (with the wait of the retry);
    a failed attempt is followed by the next retry as long as fewer than
    [RETRY_TIMES] retries were made, and a success by none. *)
Theorem retries_wait_linearly
    (rt : Runtime) (pubsub : EnhancedPubSub) (topic : JsValue)
    (config : gmap string JsValue) (line : string) (batchId : JsValue)
    (message attributes : JsValue) (h : list Event) :
  buildsMessage rt config line message attributes ->
  exists outcomes : list (JsError + string),
    outcomes ≠ [] /\
    length outcomes <= RETRY_TIMES + 1 /\
    snd (getSendSingleMessageFn rt pubsub topic config [line] batchId h)
      = h ++ concat (imap (attemptEvents topic message attributes) outcomes) /\
    (forall k o, outcomes !! k = Some o ->
       publish pubsub
         (beforePublish k
            (h ++ concat (imap (attemptEvents topic message attributes)
                            (take k outcomes))))
         topic message attributes = o) /\
    (forall k e, outcomes !! k = Some (inl e) -> k < RETRY_TIMES ->
       is_Some (outcomes !! S k)) /\
    (forall k id, outcomes !! k = Some (inr id) -> outcomes !! S k = None) /\
    (forall o, attemptEvents topic message attributes 0 o
               = [EvPublish topic message attributes o]) /\
    (forall k o, attemptEvents topic message attributes (S k) o
                 = [EvWait (S k * 1000); EvPublish topic message attributes o]) /\
    (forall h0, beforePublish 0 h0 = h0) /\
    (forall k h0, beforePublish (S k) h0 = h0 ++ [EvWait (S k * 1000)]).
Proof.
  intros Hbuilt.
  destruct (getSendSingleMessageFn_attempts rt pubsub topic config line batchId
              message attributes h Hbuilt)
    as (outcomes & Hne & Hlen & Hrun & Hans & Hretry & Hstop).
  exists outcomes. repeat split; try assumption.
Qed.

Lemma retries_wait_linearly_witness :
  buildsMessage testRuntime baseConfig "{}" (JsString "hello") (JsObject ∅) /\
  exists outcomes : list (JsError + string),
    outcomes ≠ [] /\
    length outcomes <= RETRY_TIMES + 1 /\
    snd (getSendSingleMessageFn testRuntime (failingFirst 2 unavailable "id-1")
           topic baseConfig ["{}"] JsNull [])
      = [] ++ concat (imap (attemptEvents topic (JsString "hello") (JsObject ∅))
                        outcomes) /\
    (forall k o, outcomes !! k = Some o ->
       publish (failingFirst 2 unavailable "id-1")
         (beforePublish k
            ([] ++ concat (imap (attemptEvents topic (JsString "hello")
                                   (JsObject ∅)) (take k outcomes))))
         topic (JsString "hello") (JsObject ∅) = o) /\
    (forall k e, outcomes !! k = Some (inl e) -> k < RETRY_TIMES ->
       is_Some (outcomes !! S k)) /\
    (forall k id, outcomes !! k = Some (inr id) -> outcomes !! S k = None) /\
    (forall o, attemptEvents topic (JsString "hello") (JsObject ∅) 0 o
               = [EvPublish topic (JsString "hello") (JsObject ∅) o]) /\
    (forall k o, attemptEvents topic (JsString "hello") (JsObject ∅) (S k) o
                 = [EvWait (S k * 1000);
                    EvPublish topic (JsString "hello") (JsObject ∅) o]) /\
    (forall h0, beforePublish 0 h0 = h0) /\
    (forall k h0, beforePublish (S k) h0 = h0 ++ [EvWait (S k * 1000)]).
Proof.
  assert (Hb : buildsMessage testRuntime baseConfig "{}" (JsString "hello")
                 (JsObject ∅)) by (apply baseConfig_builds; reflexivity).
  split; [exact Hb|].
  exact (retries_wait_linearly testRuntime (failingFirst 2 unavailable "id-1")
           topic baseConfig "{}" JsNull (JsString "hello") (JsObject ∅) [] Hb).
Defined.

(** C9: every [BatchResult] the function returns has [numberOfLines = 1];
    when its [result] is [false], [errors] is the list of the messages of
    the failed publishes of the run, one each and in the order of the
    attempts, and [failedLines] is the batch, which holds one record. *)
Theorem returned_batch_result_invariant
    (rt : Runtime) (pubsub : EnhancedPubSub) (topic : JsValue)
    (config : gmap string JsValue) (lines : list string) (batchId : JsValue)
    (h h' : list Event) (br : BatchResult) :
  getSendSingleMessageFn rt pubsub topic config lines batchId h = (Normal br, h') ->
  numberOfLines br = 1%Z /\
  (result br = Some false ->
   exists evs,
     h' = h ++ evs /\
     errors br = Some (failureMessages evs) /\
     length (failureMessages evs) = publishCount evs /\
     failedLines br = Some lines /\
     length lines = 1).
Proof.
  intros Hret.
  destruct (getSendSingleMessageFn_run rt pubsub topic config lines batchId h)
    as [(e & Hrun) | (line & message & attributes & es & -> & _ &
                      [(id & _ & Hrun) | (_ & Hrun)])];
    rewrite Hrun in Hret; [discriminate Hret | |]; injection Hret as <- <-.
  - split; [reflexivity|]. intros Hfalse. discriminate Hfalse.
  - split; [reflexivity|]. intros _.
    exists (loopEvents topic message attributes 0 (inl <$> es)).
    autorewrite with history. repeat split.
Qed.

Lemma returned_batch_result_invariant_witness :
  getSendSingleMessageFn testRuntime (failingWith permissionDenied) topic
    baseConfig ["{}"] JsNull []
  = (Normal (notSent (replicate 4 "PERMISSION_DENIED") ["{}"]),
     loopEvents topic (JsString "hello") (JsObject ∅) 0
       (replicate 4 (inl permissionDenied))) /\
  numberOfLines (notSent (replicate 4 "PERMISSION_DENIED") ["{}"]) = 1%Z.
Proof.
  assert (Hrun : getSendSingleMessageFn testRuntime (failingWith permissionDenied)
                   topic baseConfig ["{}"] JsNull []
                 = (Normal (notSent (replicate 4 "PERMISSION_DENIED") ["{}"]),
                    loopEvents topic (JsString "hello") (JsObject ∅) 0
                      (replicate 4 (inl permissionDenied))))
    by reflexivity.
  split; [exact Hrun|].
  exact (proj1 (returned_batch_result_invariant testRuntime
                  (failingWith permissionDenied) topic baseConfig ["{}"] JsNull
                  [] _ _ Hrun)).
Defined.

(** C7: when the first [k] publishes of a batch fail and the next one
    succeeds, for any [k] up to [RETRY_TIMES], the function returns the
    result [{numberOfLines: 1, result: true}]: it has no [errors] and no
    [failedLines], whatever the [k] failures were. *)
Theorem success_after_failures_leaves_no_trace
    (rt : Runtime) (pubsub : EnhancedPubSub) (topic : JsValue)
    (config : gmap string JsValue) (line : string) (batchId : JsValue)
    (message attributes : JsValue) (h : list Event) (k : nat) :
  buildsMessage rt config line message attributes ->
  k <= RETRY_TIMES ->
  (forall h', publishCount h' < publishCount h + k ->
              isFailure (publish pubsub h' topic message attributes)) ->
  (forall h', publishCount h' = publishCount h + k ->
              ~ isFailure (publish pubsub h' topic message attributes)) ->
  exists evs,
    getSendSingleMessageFn rt pubsub topic config [line] batchId h
      = (Normal (mkBatchResult 1 (Some true) None None), h ++ evs) /\
    publishCount evs = k + 1 /\
    length (failureMessages evs) = k.
Proof.
  intros Hbuilt Hk Hfail Hok.
  rewrite (getSendSingleMessageFn_built _ _ _ _ _ _ _ _ _ Hbuilt).
  destruct (publishLoop_run pubsub topic message attributes [line] 0 [] h)
    as (es & Hes & Hres); [lia|].
  assert (Hshort : length es <= k).
  { destruct (decide (length es <= k)) as [Hle|Hgt]; [exact Hle|].
    destruct (lookup_lt_is_Some_2 es k) as [e He]; [lia|].
    destruct (Hes k e He) as (h' & Hc & Hp).
    specialize (Hok h' Hc). rewrite Hp in Hok. destruct Hok. exact I. }
  destruct Hres as [(id & h' & _ & Hc & Hp & Hrun) | (Hlen & _)];
    [|simpl in Hlen; lia].
  assert (Hlen : length es = k).
  { destruct (decide (length es = k)) as [Heq|Hne]; [exact Heq|].
    assert (Hlt : publishCount h' < publishCount h + k) by lia.
    specialize (Hfail h' Hlt). rewrite Hp in Hfail. destruct Hfail. }
  exists (loopEvents topic message attributes 0 ((inl <$> es) ++ [inr id])).
  split; [exact Hrun|].
  rewrite publishCount_loopEvents, failureMessages_loopEvents, omap_app.
  rewrite <- (failureMessages_loopEvents topic message attributes 0 (inl <$> es)).
  rewrite failureMessages_loopEvents_failures.
  rewrite !length_app, !length_fmap. simpl. lia.
Qed.

Lemma success_after_failures_leaves_no_trace_witness :
  buildsMessage testRuntime baseConfig "{}" (JsString "hello") (JsObject ∅) /\
  2 <= RETRY_TIMES /\
  exists evs,
    getSendSingleMessageFn testRuntime (failingFirst 2 unavailable "id-1") topic
      baseConfig ["{}"] JsNull []
      = (Normal (mkBatchResult 1 (Some true) None None), [] ++ evs) /\
    publishCount evs = 2 + 1 /\
    length (failureMessages evs) = 2.
Proof.
  assert (Hb : buildsMessage testRuntime baseConfig "{}" (JsString "hello")
                 (JsObject ∅)) by (apply baseConfig_builds; reflexivity).
  assert (Hk : 2 <= RETRY_TIMES) by (unfold RETRY_TIMES; lia).
  split; [exact Hb|]. split; [exact Hk|].
  apply (success_after_failures_leaves_no_trace testRuntime
           (failingFirst 2 unavailable "id-1") topic baseConfig "{}" JsNull
           (JsString "hello") (JsObject ∅) [] 2 Hb Hk).
  - intros h' Hlt. simpl in *.
    destruct (Nat.ltb_spec (publishCount h') 2) as [_|Hge]; [exact I | lia].
  - intros h' Heq Hf. simpl in *.
    destruct (Nat.ltb_spec (publishCount h') 2) as [Hlt|_]; [lia | exact Hf].
Defined.

(** ** The retry budget and the config *)

Section ConfigIndependence.

Context (rt : Runtime) (pubsub : EnhancedPubSub) (topic : JsValue).

(** The function reads two properties of the config, [message] and
    [attributes]; setting any other one changes nothing. *)
Lemma getSendSingleMessageFn_insert_other (config : gmap string JsValue)
    (key : string) (v : JsValue) (lines : list string) (batchId : JsValue)
    (h : list Event) :
  key ≠ "message" -> key ≠ "attributes" ->
  getSendSingleMessageFn rt pubsub topic (<[key := v]> config) lines batchId h
  = getSendSingleMessageFn rt pubsub topic config lines batchId h.
Proof.
  intros Hm Ha.
  assert (Hpm : prop (<[key := v]> config) "message" = prop config "message")
    by (unfold prop; by rewrite lookup_insert_ne).
  assert (Hpa : prop (<[key := v]> config) "attributes" = prop config "attributes")
    by (unfold prop; by rewrite lookup_insert_ne).
  unfold getSendSingleMessageFn, originalMessage. rewrite Hpm, Hpa. reflexivity.
Qed.

(** No run publishes more than [RETRY_TIMES + 1] times. *)
Lemma getSendSingleMessageFn_attempts_bound (config : gmap string JsValue)
    (lines : list string) (batchId : JsValue) (h : list Event) :
  exists evs,
    snd (getSendSingleMessageFn rt pubsub topic config lines batchId h) = h ++ evs /\
    publishCount evs <= RETRY_TIMES + 1.
Proof.
  destruct (getSendSingleMessageFn_run rt pubsub topic config lines batchId h)
    as [(e & ->) | (line & message & attributes & es & -> & _ &
                    [(id & Hle & ->) | (Hlen & ->)])]; simpl.
  - exists []. autorewrite with history. split; [reflexivity|].
    unfold publishCount. simpl. lia.
  - eexists. split; [reflexivity|]. autorewrite with history.
    unfold RETRY_TIMES in *. simpl. lia.
  - eexists. split; [reflexivity|]. autorewrite with history.
    unfold RETRY_TIMES in *. lia.
Qed.

End ConfigIndependence.

(** C2, as the spec has it, fails: for a batch whose publishes all fail and
    the config [{errorOptions: {retryTimes: 1}}], the publishes are not
    [1 + 1] but 4; and with [retryTimes: 5] in place of [retryTimes: 1] the
    number of publishes is the same. *)
Lemma retry_budget_from_config_counterexample :
  ~ budgetFromConfig testRuntime (failingWith unavailable) topic retryOnce
      ["{}"] JsNull
  /\ publishCount (snd (getSendSingleMessageFn testRuntime (failingWith unavailable)
                          topic retryOnce ["{}"] JsNull []))
     = publishCount (snd (getSendSingleMessageFn testRuntime (failingWith unavailable)
                            topic retryFive ["{}"] JsNull [])).
Proof.
  split; [|reflexivity].
  intros Hclaim. specialize (Hclaim 1%Z eq_refl).
  vm_compute in Hclaim. discriminate Hclaim.
Qed.

(** C2, amended: the retry budget of a batch is the constant [RETRY_TIMES = 3]
    of the handler, and the config has no part in it: a batch whose
    publishes all fail is published exactly [RETRY_TIMES + 1] times, with
    or without [errorOptions] in its config; setting [errorOptions] or
    [retryTimes] in a config changes neither the result nor the calls of the
    function; and no batch is published more than [RETRY_TIMES + 1]
    times. *)
Theorem retry_budget_is_the_handler_constant
    (rt : Runtime) (pubsub : EnhancedPubSub) (topic : JsValue)
    (config : gmap string JsValue) (v : JsValue) (lines : list string)
    (batchId : JsValue) (h : list Event) :
  RETRY_TIMES = 3 /\
  getSendSingleMessageFn rt pubsub topic (<["errorOptions" := v]> config)
    lines batchId h
  = getSendSingleMessageFn rt pubsub topic config lines batchId h /\
  getSendSingleMessageFn rt pubsub topic (<["retryTimes" := v]> config)
    lines batchId h
  = getSendSingleMessageFn rt pubsub topic config lines batchId h /\
  (exists evs,
    snd (getSendSingleMessageFn rt pubsub topic config lines batchId h) = h ++ evs /\
    publishCount evs <= RETRY_TIMES + 1) /\
  (forall line message attributes,
     lines = [line] ->
     buildsMessage rt config line message attributes ->
     failsOnEveryAttempt pubsub topic message attributes h ->
     exists evs,
       snd (getSendSingleMessageFn rt pubsub topic config lines batchId h)
         = h ++ evs /\
       snd (getSendSingleMessageFn rt pubsub topic
              (<["errorOptions" := v]> config) lines batchId h)
         = h ++ evs /\
       publishCount evs = RETRY_TIMES + 1).
Proof.
  split; [reflexivity|].
  split; [by apply getSendSingleMessageFn_insert_other|].
  split; [by apply getSendSingleMessageFn_insert_other|].
  split; [apply getSendSingleMessageFn_attempts_bound|].
  intros line message attributes -> Hbuilt Hfail.
  rewrite getSendSingleMessageFn_insert_other by done.
  destruct (getSendSingleMessageFn_all_fail rt pubsub topic config line batchId
              message attributes h Hbuilt Hfail) as (es & Hlen & ->).
  eexists. split; [reflexivity|]. split; [reflexivity|].
  rewrite publishCount_loopEvents, length_fmap. lia.
Qed.

Lemma retry_budget_is_the_handler_constant_witness :
  buildsMessage testRuntime baseConfig "{}" (JsString "hello") (JsObject ∅) /\
  failsOnEveryAttempt (failingWith unavailable) topic (JsString "hello")
    (JsObject ∅) [] /\
  exists evs,
    snd (getSendSingleMessageFn testRuntime (failingWith unavailable) topic
           baseConfig ["{}"] JsNull []) = [] ++ evs /\
    snd (getSendSingleMessageFn testRuntime (failingWith unavailable) topic
           retryOnce ["{}"] JsNull []) = [] ++ evs /\
    publishCount evs = RETRY_TIMES + 1.
Proof.
  assert (Hb : buildsMessage testRuntime baseConfig "{}" (JsString "hello")
                 (JsObject ∅)) by (apply baseConfig_builds; reflexivity).
  assert (Hf : failsOnEveryAttempt (failingWith unavailable) topic
                 (JsString "hello") (JsObject ∅) [])
    by (intros es _; exact I).
  split; [exact Hb|]. split; [exact Hf|].
  exact (proj2 (proj2 (proj2 (proj2
           (retry_budget_is_the_handler_constant testRuntime
              (failingWith unavailable) topic baseConfig
              (JsObject (<["retryTimes" := JsNumber 1]> ∅)) ["{}"] JsNull []))))
           "{}" (JsString "hello") (JsObject ∅) eq_refl Hb Hf).
Defined.

(** C3, as the spec has it, fails: the first publish throws an error that
    is not a [RetryableError], and the batch is published again all the
    same, 4 times in all. *)
Lemma non_retryable_failure_counterexample :
  ~ nonRetryableNotRetried testRuntime (failingWith permissionDenied) topic
      baseConfig ["{}"] JsNull.
Proof.
  intros Hclaim. specialize (Hclaim permissionDenied eq_refl eq_refl).
  vm_compute in Hclaim. discriminate Hclaim.
Qed.

(** C3, amended: the function does not classify failures. The failure of a
    publish, whatever its class, is followed by another publish as long as
    fewer than [RETRY_TIMES] retries have been made, and a batch is never
    published more than [RETRY_TIMES + 1] times. *)
Theorem every_failure_is_retried_within_budget
    (rt : Runtime) (pubsub : EnhancedPubSub) (topic : JsValue)
    (config : gmap string JsValue) (lines : list string) (batchId : JsValue)
    (h : list Event) :
  exists evs,
    snd (getSendSingleMessageFn rt pubsub topic config lines batchId h) = h ++ evs /\
    publishCount evs <= RETRY_TIMES + 1 /\
    forall i error,
      publishOutcomes evs !! i = Some (inl error) ->
      i < RETRY_TIMES ->
      is_Some (publishOutcomes evs !! S i).
Proof.
  destruct (getSendSingleMessageFn_run rt pubsub topic config lines batchId h)
    as [(e & ->) | (line & message & attributes & es & -> & _ &
                    [(id & Hle & ->) | (Hlen & ->)])]; simpl.
  - exists []. autorewrite with history. split; [reflexivity|].
    split; [unfold publishCount; simpl; lia|].
    intros i error Hi. discriminate Hi.
  - eexists. split; [reflexivity|]. autorewrite with history.
    unfold RETRY_TIMES in *. simpl.
    split; [lia|]. intros i error Hi _.
    assert (Hlt : i < length ((inl <$> es) ++ [inr id : JsError + string]))
      by (eapply lookup_lt_Some; exact Hi).
    autorewrite with history in Hlt. simpl in Hlt.
    destruct (decide (i = length es)) as [->|Hne].
    + rewrite lookup_app_r in Hi by (rewrite length_fmap; lia).
      rewrite length_fmap, Nat.sub_diag in Hi. discriminate Hi.
    + apply lookup_lt_is_Some. autorewrite with history. simpl. lia.
  - eexists. split; [reflexivity|]. autorewrite with history.
    unfold RETRY_TIMES in *.
    split; [lia|]. intros i error _ Hi.
    apply lookup_lt_is_Some. autorewrite with history. lia.
Qed.

(** ** Speed options *)

(** C6: [getSpeedOptions] is a function of the config alone, and of its
    [numberOfThreads] and [qps] only; [recordsPerRequest] is 1 whatever the
    config; [numberOfThreads] and [qps] are the config's when they are there
    and valid, and the defaults, 1 thread and 1 query per second,
    otherwise. *)
Theorem getSpeedOptions_pins_one_record_per_request
    (proper : JsValue -> bool) (config : gmap string JsValue) :
  let option_or (key : string) (d : Z) : JsValue :=
    match config !! key with
    | Some JsUndefined | None => JsNumber d
    | Some v => if proper v then v else JsNumber d
    end in
  recordsPerRequest (getSpeedOptions proper config) = JsNumber 1 /\
  numberOfThreads (getSpeedOptions proper config) = option_or "numberOfThreads" 1%Z /\
  qps (getSpeedOptions proper config) = option_or "qps" 1%Z /\
  forall config' : gmap string JsValue,
    config' !! "numberOfThreads" = config !! "numberOfThreads" ->
    config' !! "qps" = config !! "qps" ->
    getSpeedOptions proper config' = getSpeedOptions proper config.
Proof.
  simpl. unfold getSpeedOptions, getProperValue, prop. simpl.
  split; [reflexivity|].
  split; [by destruct (config !! "numberOfThreads") as [[]|]|].
  split; [by destruct (config !! "qps") as [[]|]|].
  intros config' Hn Hq. by rewrite Hn, Hq.
Qed.

(** ** Task kinds and the DAO *)

(** C8: the task kinds are a closed enumeration of twelve members with
    distinct names; exactly two of them are composite, ['knot'] and
    ['multiple'], and every other member belongs to one of the groups of
    integrations. *)
Theorem task_kinds_have_two_composites :
  (forall t : TaskConfig.TaskType, t ∈ TaskConfig.members) /\
  length TaskConfig.members = 12 /\
  NoDup (TaskConfig.value <$> TaskConfig.members) /\
  (forall t, TaskConfig.ofValue (TaskConfig.value t) = Some t) /\
  List.filter TaskConfig.isComposite TaskConfig.members
    = [TaskConfig.KNOT; TaskConfig.MULTIPLE] /\
  TaskConfig.value TaskConfig.KNOT = "knot" /\
  TaskConfig.value TaskConfig.MULTIPLE = "multiple" /\
  (forall t, TaskConfig.isComposite t = true
             <-> t = TaskConfig.KNOT \/ t = TaskConfig.MULTIPLE) /\
  (forall t, TaskConfig.isComposite t = false ->
             TaskConfig.group t ∈
               [TaskConfig.BigQueryTasks; TaskConfig.CloudStorageTasks;
                TaskConfig.AutoMLTablesAPI; TaskConfig.ReportTasks]).
Proof.
  split; [intros []; unfold TaskConfig.members; set_solver|].
  split; [reflexivity|].
  split; [compute_done|].
  split; [by intros []|].
  split; [reflexivity|].
  split; [reflexivity|].
  split; [reflexivity|].
  split.
  - intros t. split.
    + destruct t; simpl; intros Hc; try discriminate Hc; auto.
    + intros [-> | ->]; reflexivity.
  - intros []; simpl; intros Hc; try discriminate Hc; set_solver.
Qed.

(** C10: a [TaskConfigDao] built without a namespace has the namespace
    ['sentinel']; built with one, it has that one; and every instance is on
    the ['TaskConfig'] collection of the data source it was given. *)
Theorem task_config_dao_defaults
    (dataSource : TaskConfig.DataSource) (namespace : option string) :
  TaskConfig.namespace (TaskConfig.TaskConfigDao dataSource None) = "sentinel" /\
  TaskConfig.namespace (TaskConfig.TaskConfigDao dataSource namespace)
    = default "sentinel" namespace /\
  TaskConfig.kind (TaskConfig.TaskConfigDao dataSource namespace) = "TaskConfig" /\
  TaskConfig.dataSource (TaskConfig.TaskConfigDao dataSource namespace) = dataSource.
Proof. repeat split. Qed.

(** ** Escaping the string properties of a record *)

Lemma append_nil_l (s : string) : String.append EmptyString s = s.
Proof. reflexivity. Qed.

Lemma append_cons (a : ascii) (s1 s2 : string) :
  String.append (String a s1) s2 = String a (String.append s1 s2).
Proof. reflexivity. Qed.

Create Rewrite HintDb strings.
#[local] Hint Rewrite append_nil_l append_cons : strings.

Section Escaping.

Lemma append_assoc (s1 s2 s3 : string) :
  String.append s1 (String.append s2 s3) = String.append (String.append s1 s2) s3.
Proof.
  induction s1 as [|a s1 IH]; autorewrite with strings;
    [reflexivity | by rewrite IH].
Qed.

Lemma replaceAll_app (c : ascii) (b s1 s2 : string) :
  replaceAll c b (String.append s1 s2)
  = String.append (replaceAll c b s1) (replaceAll c b s2).
Proof.
  induction s1 as [|a s1 IH]; autorewrite with strings; simpl; [reflexivity|].
  destruct (Ascii.eqb a c); rewrite IH; autorewrite with strings;
    [apply append_assoc | reflexivity].
Qed.

Lemma occurrences_app (c : ascii) (s1 s2 : string) :
  occurrences c (String.append s1 s2) = occurrences c s1 + occurrences c s2.
Proof.
  induction s1 as [|a s1 IH]; autorewrite with strings; simpl;
    [reflexivity | rewrite IH; lia].
Qed.

Lemma occurrences_replaceAll (c d : ascii) (b s : string) :
  occurrences d (replaceAll c b s)
  = occurrences c s * occurrences d b
    + (if Ascii.eqb c d then 0 else occurrences d s).
Proof.
  induction s as [|a s IH]; simpl; [by destruct (Ascii.eqb c d)|].
  destruct (Ascii.eqb_spec a c) as [->|Hac].
  - rewrite occurrences_app, IH.
    destruct (Ascii.eqb_spec c d) as [->|Hcd]; lia.
  - simpl. rewrite IH.
    destruct (Ascii.eqb_spec c d) as [->|Hcd]; [|lia].
    destruct (Ascii.eqb_spec a d) as [->|Had]; [contradiction | lia].
Qed.

Lemma length_replaceAll (c x y : ascii) (s : string) :
  String.length (replaceAll c (String x (String y EmptyString)) s)
  = String.length s + occurrences c s.
Proof.
  induction s as [|a s IH]; simpl; [reflexivity|].
  destruct (Ascii.eqb a c); autorewrite with strings; simpl; rewrite IH; lia.
Qed.

Lemma replaceAll_absent (c : ascii) (b s : string) :
  occurrences c s = 0 -> replaceAll c b s = s.
Proof.
  induction s as [|a s IH]; simpl; [reflexivity|].
  destruct (Ascii.eqb a c); simpl; intros H; [lia | by rewrite IH].
Qed.

Lemma quotesFollowBackslash_replaceAll (after : bool) (s : string) :
  quotesFollowBackslash after
    (replaceAll quote (String backslash (String quote EmptyString)) s) = true.
Proof.
  revert after. induction s as [|a s IH]; intros after; simpl; [reflexivity|].
  destruct (Ascii.eqb_spec a quote) as [->|Hq]; autorewrite with strings; simpl.
  - apply IH.
  - destruct (Ascii.eqb_spec a quote) as [?|_]; [contradiction|]. apply IH.
Qed.

Lemma escapeString_clean (s : string) :
  occurrences newline (escapeString s) = 0 /\
  quotesFollowBackslash false (escapeString s) = true.
Proof.
  unfold escapeString. split; [|apply quotesFollowBackslash_replaceAll].
  rewrite !occurrences_replaceAll. simpl. lia.
Qed.

Lemma escapeString_app_distr (s1 s2 : string) :
  escapeString (String.append s1 s2)
  = String.append (escapeString s1) (escapeString s2).
Proof. unfold escapeString. by rewrite !replaceAll_app. Qed.

End Escaping.

(** X1: an escaped string holds no newline character, and each of its
    quotes comes right after a backslash. *)
Theorem escapeString_no_newline_no_bare_quote (s : string) :
  occurrences newline (escapeString s) = 0 /\
  quotesFollowBackslash false (escapeString s) = true.
Proof. apply escapeString_clean. Qed.

(** X2: escaping adds one character for each newline and each quote of the
    string, and so leaves a string as it is exactly when it has neither. *)
Theorem escapeString_length (s : string) :
  String.length (escapeString s)
  = String.length s + occurrences newline s + occurrences quote s /\
  (escapeString s = s <-> occurrences newline s = 0 /\ occurrences quote s = 0).
Proof.
  assert (Hlen : String.length (escapeString s)
                 = String.length s + occurrences newline s + occurrences quote s).
  { unfold escapeString.
    rewrite !length_replaceAll, occurrences_replaceAll. simpl. lia. }
  split; [exact Hlen|]. split.
  - intros Heq. rewrite Heq in Hlen. lia.
  - intros [Hn Hq]. unfold escapeString.
    rewrite (replaceAll_absent newline) by exact Hn.
    by apply replaceAll_absent.
Qed.

(** X3: escaping goes through concatenation: the escape of two strings
    put together is their two escapes put together. *)
Theorem escapeString_app (s1 s2 : string) :
  escapeString (String.append s1 s2)
  = String.append (escapeString s1) (escapeString s2).
Proof. apply escapeString_app_distr. Qed.

(** X4: backslashes are not escaped, so escaping loses information: a
    newline and the two characters backslash, [n] are escaped to the same
    text, wherever they stand. *)
Theorem escapeString_conflates_newline (s1 s2 : string) :
  String.append s1 (String newline s2)
    ≠ String.append s1 (String backslash (String "n" s2)) /\
  escapeString (String.append s1 (String newline s2))
  = escapeString (String.append s1 (String backslash (String "n" s2))).
Proof.
  split.
  - induction s1 as [|a s1 IH]; autorewrite with strings; intros Heq.
    + discriminate Heq.
    + injection Heq as Heq. by apply IH.
  - rewrite !escapeString_app_distr. f_equal.
Qed.

(** X5: escaping the arguments of a record keeps its keys; afterwards no
    string property holds a newline or a quote without a backslash before
    it; and a property that is not a string, an object or an array with
    strings of its own included, is left as it is. *)
Theorem escapeArgs_object (props : gmap string JsValue) :
  exists props' : gmap string JsValue,
    escapeArgs (JsObject props) = inr (JsObject props') /\
    dom props' = dom props /\
    (forall k s, props' !! k = Some (JsString s) ->
       occurrences newline s = 0 /\ quotesFollowBackslash false s = true) /\
    (forall k v, props !! k = Some v -> typeof v ≠ "string" ->
       props' !! k = Some v).
Proof.
  exists (escapeIfString <$> props). split; [reflexivity|].
  split; [apply dom_fmap_L|]. split.
  - intros k s. rewrite lookup_fmap.
    destruct (props !! k) as [v|]; simpl; [|intros H; discriminate H].
    destruct v; simpl; intros H; try discriminate H.
    injection H as <-. apply escapeString_clean.
  - intros k v Hk Hv. rewrite lookup_fmap, Hk. simpl.
    destruct v; try reflexivity. by destruct Hv.
Qed.

(** X6: escaping the arguments fails, with a [TypeError], exactly when the
    parsed record is [null] or [undefined]; otherwise the kind of the value
    stays the same. *)
Theorem escapeArgs_fails_on_null_only (args : JsValue) :
  ((exists e, escapeArgs args = inl e) <-> args = JsUndefined \/ args = JsNull) /\
  (forall e, escapeArgs args = inl e -> errorClass e = "TypeError") /\
  (forall args', escapeArgs args = inr args' -> typeof args' = typeof args).
Proof.
  split; [split|split].
  - intros [e He]. destruct args; try discriminate He; auto.
  - intros [-> | ->]; eexists; reflexivity.
  - intros e He. destruct args; try discriminate He; by injection He as <-.
  - intros args' He. destruct args; try discriminate He; by injection He as <-.
Qed.

(** ** More on the runs of the send function *)

Section RunShapes.

Context (topic message attributes : JsValue).

Lemma loopEvents_snoc (r : nat) (os : list (JsError + string)) (o : JsError + string) :
  loopEvents topic message attributes r (os ++ [o])
  = loopEvents topic message attributes r os
      ++ attemptEvents topic message attributes (r + length os) o.
Proof.
  revert r. induction os as [|o' os IH]; intros r; simpl.
  - rewrite loopEvents_cons, loopEvents_nil, app_nil_r, Nat.add_0_r. reflexivity.
  - rewrite !loopEvents_cons, IH, <- app_assoc. do 3 f_equal. lia.
Qed.

Lemma loopEvents_last (r : nat) (os : list (JsError + string)) :
  os ≠ [] ->
  exists o, last (loopEvents topic message attributes r os)
            = Some (EvPublish topic message attributes o).
Proof.
  destruct os as [|o os _] using rev_ind; [by intros []|]. intros _.
  exists o. rewrite loopEvents_snoc. unfold attemptEvents.
  rewrite app_assoc. apply last_snoc.
Qed.

Lemma loopEvents_payload (r : nat) (os : list (JsError + string)) (ev : Event) :
  ev ∈ loopEvents topic message attributes r os ->
  (exists ms, ev = EvWait ms)
  \/ (exists o, ev = EvPublish topic message attributes o).
Proof.
  revert r. induction os as [|o os IH]; intros r.
  - rewrite loopEvents_nil. intros Hin. by apply elem_of_nil in Hin.
  - rewrite loopEvents_cons, elem_of_app. intros [Hin | Hin]; [|by eapply IH].
    unfold attemptEvents in Hin. rewrite elem_of_app in Hin.
    destruct Hin as [Hin | Hin].
    + destruct (0 <? r); [|by apply elem_of_nil in Hin].
      apply list_elem_of_singleton in Hin. left. by eexists.
    + apply list_elem_of_singleton in Hin. right. by eexists.
Qed.

Lemma totalWait_app (h1 h2 : list Event) :
  totalWait (h1 ++ h2) = totalWait h1 + totalWait h2.
Proof. apply sum_list_with_app. Qed.

Lemma totalWait_attempt (k : nat) (o : JsError + string) :
  totalWait (attemptEvents topic message attributes k o) = k * 1000.
Proof.
  unfold attemptEvents, totalWait.
  destruct (Nat.ltb_spec 0 k); simpl; lia.
Qed.

Lemma totalWait_loopEvents (r : nat) (os : list (JsError + string)) :
  2 * totalWait (loopEvents topic message attributes r os) + 1000 * length os
  = 1000 * length os * (2 * r + length os).
Proof.
  revert r. induction os as [|o os IH]; intros r; [reflexivity|].
  rewrite loopEvents_cons, totalWait_app, totalWait_attempt.
  specialize (IH (S r)). simpl length. nia.
Qed.

End RunShapes.

(** X7: a record that is not JSON makes the function throw the error of
    [JSON.parse] itself, before anything is published: the record is not
    reported in [failedLines]. *)
Theorem unparsable_record_throws
    (rt : Runtime) (pubsub : EnhancedPubSub) (topic : JsValue)
    (config : gmap string JsValue) (line : string) (batchId : JsValue)
    (h : list Event) (e : JsError) :
  JSON_parse rt (JsString line) = inl e ->
  getSendSingleMessageFn rt pubsub topic config [line] batchId h = (Throw e, h).
Proof.
  intros Hparse. unfold getSendSingleMessageFn.
  destruct (decide (length [line] ≠ 1)) as [Hne|_]; [by destruct Hne|].
  unfold bind, lift, throw. simpl. by rewrite Hparse.
Qed.

Lemma unparsable_record_throws_witness :
  JSON_parse testRuntime (JsString "{")
    = inl (mkJsError "SyntaxError" "Unexpected token in JSON") /\
  getSendSingleMessageFn testRuntime (failingFirst 0 unavailable "id-1") topic
    baseConfig ["{"] JsNull []
    = (Throw (mkJsError "SyntaxError" "Unexpected token in JSON"), []).
Proof.
  assert (Hp : JSON_parse testRuntime (JsString "{")
               = inl (mkJsError "SyntaxError" "Unexpected token in JSON"))
    by reflexivity.
  split; [exact Hp|].
  exact (unparsable_record_throws testRuntime (failingFirst 0 unavailable "id-1")
           topic baseConfig "{" JsNull [] _ Hp).
Defined.

(** X8: a record that parses to [null] makes the function throw a
    [TypeError] (from [Object.keys]) before anything is published. *)
Theorem null_record_throws
    (rt : Runtime) (pubsub : EnhancedPubSub) (topic : JsValue)
    (config : gmap string JsValue) (line : string) (batchId : JsValue)
    (h : list Event) :
  JSON_parse rt (JsString line) = inr JsNull ->
  exists e,
    getSendSingleMessageFn rt pubsub topic config [line] batchId h = (Throw e, h) /\
    errorClass e = "TypeError".
Proof.
  intros Hparse. unfold getSendSingleMessageFn.
  destruct (decide (length [line] ≠ 1)) as [Hne|_]; [by destruct Hne|].
  unfold bind, lift, throw. simpl. rewrite Hparse. simpl. by eexists.
Qed.

Lemma null_record_throws_witness :
  JSON_parse nullLineRuntime (JsString "null") = inr JsNull /\
  exists e,
    getSendSingleMessageFn nullLineRuntime (failingFirst 0 unavailable "id-1")
      topic baseConfig ["null"] JsNull [] = (Throw e, []) /\
    errorClass e = "TypeError".
Proof.
  assert (Hp : JSON_parse nullLineRuntime (JsString "null") = inr JsNull)
    by reflexivity.
  split; [exact Hp|].
  exact (null_record_throws nullLineRuntime (failingFirst 0 unavailable "id-1")
           topic baseConfig "null" JsNull [] Hp).
Defined.

(** X10: the message is built once: every publish of a run, first attempt
    and retries alike, is made on the topic given, with one and the same
    message and the same attributes. *)
Theorem retries_resend_the_same_message
    (rt : Runtime) (pubsub : EnhancedPubSub) (topic : JsValue)
    (config : gmap string JsValue) (lines : list string) (batchId : JsValue)
    (h : list Event) :
  exists message attributes evs,
    snd (getSendSingleMessageFn rt pubsub topic config lines batchId h) = h ++ evs /\
    forall ev, ev ∈ evs ->
      (exists ms, ev = EvWait ms)
      \/ (exists o, ev = EvPublish topic message attributes o).
Proof.
  destruct (getSendSingleMessageFn_run rt pubsub topic config lines batchId h)
    as [(e & ->) | (line & message & attributes & es & -> & _ &
                    [(id & _ & ->) | (_ & ->)])]; simpl.
  - exists JsUndefined, JsUndefined, []. rewrite app_nil_r.
    split; [reflexivity|]. intros ev Hin. by apply elem_of_nil in Hin.
  - exists message, attributes. eexists. split; [reflexivity|].
    intros ev. apply loopEvents_payload.
  - exists message, attributes. eexists. split; [reflexivity|].
    intros ev. apply loopEvents_payload.
Qed.

(** X11: in a run that returns, every publish but the last one failed.
    [result] is [true] when the last publish succeeded, after at most
    [RETRY_TIMES] failures, and [false] when it failed as the [RETRY_TIMES]
    before it did: a batch is never published again after a success. *)
Theorem at_most_one_publish_succeeds
    (rt : Runtime) (pubsub : EnhancedPubSub) (topic : JsValue)
    (config : gmap string JsValue) (lines : list string) (batchId : JsValue)
    (h h' : list Event) (br : BatchResult) :
  getSendSingleMessageFn rt pubsub topic config lines batchId h = (Normal br, h') ->
  exists evs (failures : list JsError) (o : JsError + string),
    h' = h ++ evs /\
    publishOutcomes evs = (inl <$> failures) ++ [o] /\
    ((exists id, o = inr id /\ result br = Some true /\
                 length failures <= RETRY_TIMES)
     \/ (isFailure o /\ result br = Some false /\
         length failures = RETRY_TIMES)).
Proof.
  intros Hrun.
  destruct (getSendSingleMessageFn_run rt pubsub topic config lines batchId h)
    as [(e' & He) | (line & message & attributes & es & _ & _ &
                     [(id & Hle & He) | (Hlen & He)])];
    rewrite He in Hrun; [discriminate Hrun | |]; injection Hrun as <- <-.
  - eexists. exists es, (inr id). split; [reflexivity|].
    rewrite publishOutcomes_loopEvents. split; [reflexivity|].
    left. by exists id.
  - destruct es as [|e es _] using rev_ind; [discriminate Hlen|].
    eexists. exists es, (inl e). split; [reflexivity|].
    rewrite publishOutcomes_loopEvents, fmap_app. split; [reflexivity|].
    right. rewrite length_app in Hlen. simpl in Hlen.
    repeat split. lia.
Qed.

Lemma at_most_one_publish_succeeds_witness :
  getSendSingleMessageFn testRuntime (failingFirst 2 unavailable "id-1") topic
    baseConfig ["{}"] JsNull []
  = (Normal sent,
     loopEvents topic (JsString "hello") (JsObject ∅) 0
       [inl unavailable; inl unavailable; inr "id-1"]) /\
  exists evs (failures : list JsError) (o : JsError + string),
    loopEvents topic (JsString "hello") (JsObject ∅) 0
      [inl unavailable; inl unavailable; inr "id-1"] = [] ++ evs /\
    publishOutcomes evs = (inl <$> failures) ++ [o] /\
    ((exists id, o = inr id /\ result sent = Some true /\
                 length failures <= RETRY_TIMES)
     \/ (isFailure o /\ result sent = Some false /\
         length failures = RETRY_TIMES)).
Proof.
  assert (Hrun : getSendSingleMessageFn testRuntime
                   (failingFirst 2 unavailable "id-1") topic baseConfig ["{}"]
                   JsNull []
                 = (Normal sent,
                    loopEvents topic (JsString "hello") (JsObject ∅) 0
                      [inl unavailable; inl unavailable; inr "id-1"]))
    by reflexivity.
  split; [exact Hrun|].
  exact (at_most_one_publish_succeeds testRuntime
           (failingFirst 2 unavailable "id-1") topic baseConfig ["{}"] JsNull
           [] _ _ Hrun).
Defined.

(** X12: the time a run spends waiting depends on the number [n] of its
    publishes alone: it is [1000 * (0 + 1 + ... + (n - 1))] milliseconds,
    and never more than 6 seconds. *)
Theorem total_wait_of_a_run
    (rt : Runtime) (pubsub : EnhancedPubSub) (topic : JsValue)
    (config : gmap string JsValue) (lines : list string) (batchId : JsValue)
    (h : list Event) :
  exists evs,
    snd (getSendSingleMessageFn rt pubsub topic config lines batchId h) = h ++ evs /\
    2 * totalWait evs + 1000 * publishCount evs
      = 1000 * publishCount evs * publishCount evs /\
    totalWait evs <= 6 * 1000.
Proof.
  destruct (getSendSingleMessageFn_run rt pubsub topic config lines batchId h)
    as [(e & ->) | (line & message & attributes & es & -> & _ &
                    [(id & Hle & ->) | (Hlen & ->)])]; simpl.
  - exists []. rewrite app_nil_r. split; [reflexivity|].
    unfold totalWait, publishCount. simpl. lia.
  - eexists. split; [reflexivity|].
    pose proof (totalWait_loopEvents topic message attributes 0
                  ((inl <$> es) ++ [inr id])) as Hsum.
    rewrite publishCount_loopEvents.
    assert (Hn : length ((inl <$> es) ++ [inr id : JsError + string]) <= 4).
    { rewrite length_app, length_fmap. unfold RETRY_TIMES in Hle. simpl. lia. }
    split; nia.
  - eexists. split; [reflexivity|].
    pose proof (totalWait_loopEvents topic message attributes 0
                  (inl <$> es : list (JsError + string))) as Hsum.
    rewrite publishCount_loopEvents.
    assert (Hn : length (inl <$> es : list (JsError + string)) = 4).
    { rewrite length_fmap. unfold RETRY_TIMES in Hlen. lia. }
    split; nia.
Qed.

(** X13: a run never ends on a wait: after the last publish, failed or
    not, the function returns at once. *)
Theorem no_wait_after_last_publish
    (rt : Runtime) (pubsub : EnhancedPubSub) (topic : JsValue)
    (config : gmap string JsValue) (lines : list string) (batchId : JsValue)
    (h : list Event) :
  exists evs,
    snd (getSendSingleMessageFn rt pubsub topic config lines batchId h) = h ++ evs /\
    forall ms, last evs ≠ Some (EvWait ms).
Proof.
  destruct (getSendSingleMessageFn_run rt pubsub topic config lines batchId h)
    as [(e & ->) | (line & message & attributes & es & -> & _ &
                    [(id & Hle & ->) | (Hlen & ->)])]; simpl.
  - exists []. rewrite app_nil_r. split; [reflexivity|].
    intros ms Hl. discriminate Hl.
  - eexists. split; [reflexivity|]. intros ms Hl.
    destruct (loopEvents_last topic message attributes 0
                ((inl <$> es) ++ [inr id])) as [o Ho];
      [by destruct es | rewrite Ho in Hl; discriminate Hl].
  - eexists. split; [reflexivity|]. intros ms Hl.
    destruct (loopEvents_last topic message attributes 0
                (inl <$> es : list (JsError + string))) as [o Ho];
      [by destruct es | rewrite Ho in Hl; discriminate Hl].
Qed.

(** X14: when the topic cannot be got or created, [sendDataInternal] throws
    that error, whatever the managed sender is: no record is sent. *)
Theorem sendDataInternal_throws_without_topic
    (rt : Runtime)
    (getManagedSendFn : gmap string JsValue ->
       (list string -> JsValue -> M BatchResult) -> string -> JsValue -> M BatchResult)
    (pubsub : EnhancedPubSub) (records : string) (messageId : JsValue)
    (config : gmap string JsValue) (h : list Event) (e : JsError) :
  getOrCreateTopic pubsub (prop config "topic") = inl e ->
  sendDataInternal rt getManagedSendFn pubsub records messageId config h
  = (Throw e, h).
Proof.
  intros Htopic. unfold sendDataInternal, bind, lift, throw.
  by rewrite Htopic.
Qed.

Lemma sendDataInternal_throws_without_topic_witness :
  getOrCreateTopic withoutTopic (prop baseConfig "topic") = inl topicNotFound /\
  sendDataInternal testRuntime (fun _ send records id => send [records] id)
    withoutTopic "{}" JsNull baseConfig []
  = (Throw topicNotFound, []).
Proof.
  assert (Ht : getOrCreateTopic withoutTopic (prop baseConfig "topic")
               = inl topicNotFound) by reflexivity.
  split; [exact Ht|].
  exact (sendDataInternal_throws_without_topic testRuntime
           (fun _ send records id => send [records] id)
           withoutTopic "{}" JsNull baseConfig [] _ Ht).
Defined.
